(** * TS / degrees-of-freedom -> sigma conversion (Fermi-LAT notebook)

    A shallow embedding of the function [sigma(TS, dof)] of
    [TS_DegFreedom_Sigma_Relation_FermiLAT.ipynb] and the properties of
    it that the specification states.

    The function is a few lines of Python: three guards that raise
    [ValueError], then one of two numerical paths.  The numerical paths
    call into numpy and scipy ([np.sqrt], [chi2.sf], [norm.isf]), whose
    code is not part of the notebook.  These calls are kept as calls: a
    computation is a tree of library calls, run against a library that
    answers each call with a binary64 number or raises an exception of
    its own (numpy and scipy refuse a Python [int] that does not fit a
    machine word, for one); an exception raised by a call leaves the
    function uncaught.  Every statement below holds for every such
    library; where a statement depends on what the library computes, it
    names the property of the library it uses.

    The arguments are Python numbers ([int] or [float]), as the
    docstring and the specification's data model have them. *)

From Stdlib Require Import ZArith Bool String List Lia.
From Stdlib Require Import Floats.
From Stdlib Require Uint63.

Local Open Scope Z_scope.
Local Open Scope list_scope.

(** ** Python values and exceptions *)

Module Py.

(** An [int] (unbounded) or a [float] (IEEE-754 binary64).  A Python
    [bool] is an [int] for every operation used here ([True] is [1],
    [isinstance(True, int)] holds), so it is covered by [PyInt]. *)
Inductive value : Type :=
| PyInt (n : Z)
| PyFloat (x : float).

(** [isinstance(v, int)] *)
Definition isinstance_int (v : value) : bool :=
  match v with
  | PyInt _ => true
  | PyFloat _ => false
  end.

(** [v < 0], [v <= 0] and [v > 1400].  A comparison of a [float] with
    one of these [int] literals is the IEEE comparison with the
    literal's value (0 and 1400 are binary64 numbers); a NaN compares
    false. *)
Definition lt_zero (v : value) : bool :=
  match v with
  | PyInt n => n <? 0
  | PyFloat x => (x <? 0)%float
  end.

Definition le_zero (v : value) : bool :=
  match v with
  | PyInt n => n <=? 0
  | PyFloat x => (x <=? 0)%float
  end.

Definition gt_1400 (v : value) : bool :=
  match v with
  | PyInt n => 1400 <? n
  | PyFloat x => (1400 <? x)%float
  end.

(** Exception classes; the function itself only ever constructs
    [ValueError]. *)
Inductive exn_class : Type :=
| ValueError
| TypeError
| ZeroDivisionError
| OverflowError.

Record exn : Type := Exn { exn_kind : exn_class; exn_msg : string }.

End Py.
Import Py.

(** ** Computations that call the numerical libraries *)

(** The three library entry points the function uses, with their
    arguments as they are passed. *)
Inductive libcall : Type :=
| np_sqrt (x : value)                (* [np.sqrt(x)] *)
| chi2_sf (x : value) (df : value)   (* [scipy.stats.chi2.sf(x, df)] *)
| norm_isf (q : float).              (* [scipy.stats.norm.isf(q)] *)

(** A computation returns, raises, or calls the library and goes on with
    the binary64 number it is answered. *)
Inductive prog (A : Type) : Type :=
| Ret (a : A)
| Raise (e : exn)
| Call (c : libcall) (k : float -> prog A).

Arguments Ret {A} a.
Arguments Raise {A} e.
Arguments Call {A} c k.

Fixpoint bind {A B : Type} (m : prog A) (f : A -> prog B) : prog B :=
  match m with
  | Ret a => f a
  | Raise e => Raise e
  | Call c k => Call c (fun r => bind (k r) f)
  end.

Definition call (c : libcall) : prog float := Call c (fun r => Ret r).

(** [if c: raise ValueError(msg)] *)
Definition raise_if (c : bool) (msg : string) : prog unit :=
  if c then Raise (Exn ValueError msg) else Ret tt.

Declare Scope prog_scope.
Delimit Scope prog_scope with prog.
Notation "x <- m ;; k" := (bind m (fun x => k))
  (at level 61, m at next level, right associativity) : prog_scope.
Notation "m ;; k" := (bind m (fun _ => k))
  (at level 61, right associativity) : prog_scope.
Local Open Scope prog_scope.

(** ** The function *)

Definition msg_TS : string := "TS value must be non-negative.".
Definition msg_dof_positive : string := "Degrees of Freedom (dof) must be positive.".
Definition msg_dof_integer : string := "Degrees of Freedom (dof) must be integer.".

(** [def sigma(TS, dof)], statement by statement. *)
Definition sigma (TS dof : value) : prog float :=
  (* Validate inputs *)
  raise_if (lt_zero TS) msg_TS ;;
  raise_if (le_zero dof) msg_dof_positive ;;
  raise_if (negb (isinstance_int dof)) msg_dof_integer ;;
  (* Compute sigma *)
  nsigma <-
    (if gt_1400 TS then
       (* Approximation for large TS *)
       call (np_sqrt TS)
     else
       (* General case *)
       p <- call (chi2_sf TS dof) ;;
       call (norm_isf (p / 2)%float)) ;;
  Ret nsigma.

(** ** Running a computation against a library *)

Inductive outcome (A : Type) : Type :=
| Returned (a : A)
| Raised (e : exn).

Arguments Returned {A} a.
Arguments Raised {A} e.

(** A library answers a call with a binary64 number, or raises. *)
Record py_lib : Type := PyLib { py_answer : libcall -> outcome float }.

(** The function has no [try]: an exception raised by a library call
    ends the computation and reaches the caller. *)
Fixpoint exec {A : Type} (P : py_lib) (m : prog A) : outcome A :=
  match m with
  | Ret a => Returned a
  | Raise e => Raised e
  | Call c k =>
      match py_answer P c with
      | Returned r => exec P (k r)
      | Raised e => Raised e
      end
  end.

(** The library calls a computation makes before it ends, in order; a
    call that raises is the last one. *)
Fixpoint trace {A : Type} (P : py_lib) (m : prog A) : list libcall :=
  match m with
  | Ret _ | Raise _ => nil
  | Call c k =>
      c :: match py_answer P c with
           | Returned r => trace P (k r)
           | Raised _ => nil
           end
  end.

(** ** Libraries that answer every call *)

(** The case in which no library call raises: the library is then three
    functions into the binary64 numbers.  It serves the statements on
    what the function does with the answers it gets; [run] and [calls]
    are [exec] and [trace] for such a library. *)
Record stats_lib : Type := StatsLib {
  lib_sqrt : value -> float;
  lib_chi2_sf : value -> value -> float;
  lib_norm_isf : float -> float
}.

Definition answer (L : stats_lib) (c : libcall) : float :=
  match c with
  | np_sqrt x => lib_sqrt L x
  | chi2_sf x df => lib_chi2_sf L x df
  | norm_isf q => lib_norm_isf L q
  end.

Fixpoint run {A : Type} (L : stats_lib) (m : prog A) : outcome A :=
  match m with
  | Ret a => Returned a
  | Raise e => Raised e
  | Call c k => run L (k (answer L c))
  end.

(** The library calls a computation makes before it ends, in order. *)
Fixpoint calls {A : Type} (L : stats_lib) (m : prog A) : list libcall :=
  match m with
  | Ret _ | Raise _ => nil
  | Call c k => c :: calls L (k (answer L c))
  end.

(** Such a library among all libraries. *)
Definition answering (L : stats_lib) : py_lib :=
  PyLib (fun c => Returned (answer L c)).

(** ** The vocabulary of the specification *)

(** [v >= 0], [v <= 1400] and [v == 0], as the specification writes the
    domains; a NaN satisfies none. *)
Definition ge_zero (v : value) : bool :=
  match v with
  | PyInt n => 0 <=? n
  | PyFloat x => (0 <=? x)%float
  end.

Definition le_1400 (v : value) : bool :=
  match v with
  | PyInt n => n <=? 1400
  | PyFloat x => (x <=? 1400)%float
  end.

Definition eq_zero (v : value) : bool :=
  match v with
  | PyInt n => n =? 0
  | PyFloat x => (x =? 0)%float
  end.

(** A binary64 number whose value is an integer ([float.is_integer]). *)
Definition float_is_integer (x : float) : bool :=
  match Prim2SF x with
  | S754_zero _ => true
  | S754_finite _ m e => (0 <=? e) || (Z.pos m mod 2 ^ (- e) =? 0)
  | S754_infinity _ | S754_nan => false
  end.

(** "[dof] is an integral value": a property of the value, whatever its
    type. *)
Definition integral_value (v : value) : bool :=
  match v with
  | PyInt _ => true
  | PyFloat x => float_is_integer x
  end.

(** The rejection condition as the specification words it. *)
Definition rejected_by_value (TS dof : value) : bool :=
  lt_zero TS || le_zero dof || negb (integral_value dof).

(** The rejection condition as the guards test it. *)
Definition rejected_by_guards (TS dof : value) : bool :=
  lt_zero TS || le_zero dof || negb (isinstance_int dof).

(** The value of the general case: [norm.isf(chi2.sf(TS, dof) / 2)]. *)
Definition exact_formula (L : stats_lib) (TS dof : value) : float :=
  lib_norm_isf L (lib_chi2_sf L TS dof / 2)%float.

(** The same expression against a library that may raise: the outcome
    of evaluating [norm.isf(chi2.sf(TS, dof) / 2)]. *)
Definition exact_expression (P : py_lib) (TS dof : value) : outcome float :=
  match py_answer P (chi2_sf TS dof) with
  | Returned p => py_answer P (norm_isf (p / 2)%float)
  | Raised e => Raised e
  end.



(** A number that [f"{r:.2f}"] prints as 44.72: within half a unit of
    the second decimal.  The bounds are the binary64 numbers nearest to
    44.715 and 44.725. *)
Definition prints_44_72 (r : float) : bool :=
  (0x1.65b851eb851ecp+5 <=? r)%float && (r <? 0x1.65ccccccccccdp+5)%float.

(** Two libraries on which the statements can be run.  The first
    answers every call with a fixed number.  The second has the binary64
    square root for [np.sqrt], of a [float] and of an [int] from 0 to
    2^63 - 1, and refuses every other [int]; its [chi2.sf] and
    [norm.isf] answer fixed numbers. *)
Definition const_lib (s p q : float) : stats_lib :=
  StatsLib (fun _ => s) (fun _ _ => p) (fun _ => q).

Definition msg_int_range : string := "int does not fit a machine word".

Definition sqrt_lib (p q : float) : py_lib :=
  PyLib (fun c =>
    match c with
    | np_sqrt (PyFloat x) => Returned (sqrt x)
    | np_sqrt (PyInt n) =>
        if (0 <=? n) && (n <? 2 ^ 63)
        then Returned (sqrt (of_uint63 (Uint63.of_Z n)))
        else Raised (Exn TypeError msg_int_range)
    | chi2_sf _ _ => Returned p
    | norm_isf _ => Returned q
    end).

(** The binary64 numbers 0, 1/2, 1 and 2, unpacked. *)
Definition zero_sf : spec_float := S754_zero false.
Definition half_sf : spec_float := S754_finite false 4503599627370496 (-53).
Definition one_sf : spec_float := S754_finite false 4503599627370496 (-52).
Definition two_sf : spec_float := S754_finite false 4503599627370496 (-51).

(** ** Further vocabulary: edge values, the two paths, the example cell *)

(** [v != v]: the value is a NaN (an [int] never is). *)
Definition nan_value (v : value) : bool :=
  match v with
  | PyInt _ => false
  | PyFloat x => is_nan x
  end.

(** [v > 0] *)
Definition positive_value (v : value) : bool :=
  match v with
  | PyInt n => 0 <? n
  | PyFloat x => (0 <? x)%float
  end.

(** A NaN, an infinity or a zero. *)
Definition special_value (p : float) : bool :=
  is_nan p || is_infinity p || is_zero p.

(** The two branches of [sigma], as computations. *)
Definition large_TS_case (TS : value) : prog float :=
  call (np_sqrt TS).

Definition general_case (TS dof : value) : prog float :=
  p <- call (chi2_sf TS dof) ;;
  call (norm_isf (p / 2)%float).

(** What may be asked of the library on behalf of a call [sigma(TS, dof)]:
    [np.sqrt] of the caller's [TS], which is then above 1400;
    [chi2.sf] of the caller's [TS] and [dof], which then passed the
    guards; [norm.isf] of half of [chi2.sf]'s answer. *)
Definition validated_call (L : stats_lib) (TS dof : value) (c : libcall) : Prop :=
  match c with
  | np_sqrt x =>
      x = TS /\ gt_1400 x = true /\ lt_zero x = false /\ nan_value x = false
  | chi2_sf x df =>
      x = TS /\ df = dof /\ lt_zero x = false /\ gt_1400 x = false /\
      isinstance_int df = true /\ positive_value df = true
  | norm_isf q =>
      q = (lib_chi2_sf L TS dof / 2)%float /\ gt_1400 TS = false
  end.

(** The binary64 number with mantissa [r] at the smallest exponent. *)
Definition at_emin (r : Z) : spec_float :=
  match r with
  | Z0 => S754_zero false
  | Zpos p => S754_finite false p (-1074)
  | Zneg _ => S754_nan
  end.

(** The notebook's last cell runs three examples.  Each one sets [TS]
    and [dof], calls [sigma] and prints one line, an f-string around
    [dof], [TS] and the result (to two decimals).  A printed line is
    kept as the three values it shows; how Python renders them as text
    is not modelled. *)
Record line : Type := Line {
  line_dof : value;
  line_TS : value;
  line_significance : float
}.

(** [significance = sigma(TS,dof)]; [print(f"...")] *)
Definition example (TS dof : value) : prog line :=
  significance <- sigma TS dof ;;
  Ret (Line dof TS significance).

(** [TS=25, dof=4], then [TS=19.8, dof=2], then [TS=10, dof=2]; 19.8 is
    read as the nearest binary64 number. *)
Definition examples : list (prog line) :=
  example (PyInt 25) (PyInt 4) ::
  example (PyFloat 0x1.3cccccccccccdp+4) (PyInt 2) ::
  example (PyInt 10) (PyInt 2) :: nil.

(** Running the statements of a cell in order: the lines printed, and
    the exception that stopped the cell, if any. *)
Fixpoint run_cell (L : stats_lib) (stmts : list (prog line)) : list line * option exn :=
  match stmts with
  | nil => (nil, None)
  | s :: rest =>
      match run L s with
      | Raised e => (nil, Some e)
      | Returned l => let (out, err) := run_cell L rest in (l :: out, err)
      end
  end.

(** ** Facts on binary64 comparison and halving *)

Module IEEE.

(** Swapping the operands of a comparison flips its result. *)
Lemma SFcompare_swap (a b : spec_float) :
  SFcompare b a = option_map CompOpp (SFcompare a b).
Proof.
  destruct a as [sa|sa| |sa ma ea], b as [sb|sb| |sb mb eb]; simpl;
    try reflexivity;
    try (destruct sa; reflexivity);
    try (destruct sb; reflexivity);
    try (destruct sa, sb; reflexivity).
  fold (Pos.compare ma mb); fold (Pos.compare mb ma).
  rewrite (Z.compare_antisym ea eb), (Pos.compare_antisym ma mb).
  destruct sa, sb; simpl; try reflexivity;
    destruct (ea ?= eb); reflexivity.
Qed.

Lemma leb_not_gtb (x y : float) :
  (x <=? y)%float = true -> (y <? x)%float = false.
Proof.
  rewrite leb_spec, ltb_spec. unfold SFleb, SFltb.
  rewrite (SFcompare_swap (Prim2SF x) (Prim2SF y)).
  destruct (SFcompare (Prim2SF x) (Prim2SF y)) as [[ | | ]|]; simpl; congruence.
Qed.

Lemma gt_1400_not_neg (x : float) :
  (1400 <? x)%float = true -> (x <? 0)%float = false.
Proof.
  rewrite !ltb_spec. unfold SFltb.
  change (Prim2SF 1400) with (S754_finite false 6157265115545600 (-42)).
  change (Prim2SF 0) with zero_sf.
  destruct (Prim2SF x) as [s|s| |s m e]; simpl; try congruence;
    destruct s; simpl; congruence.
Qed.

Lemma eqb_zero_cmp (x : float) :
  (x =? 0)%float = true -> (x <? 0)%float = false /\ (1400 <? x)%float = false.
Proof.
  rewrite eqb_spec, !ltb_spec. unfold SFeqb, SFltb.
  change (Prim2SF 0) with zero_sf.
  change (Prim2SF 1400) with (S754_finite false 6157265115545600 (-42)).
  destruct (Prim2SF x) as [s|s| |s m e]; simpl; try discriminate.
  - now split.
  - destruct s; discriminate.
  - destruct s; discriminate.
Qed.

(** *** Euclidean division and bit lengths *)

Lemma div_eucl_exact (a b q : Z) : 0 < b -> a = b * q -> Z.div_eucl a b = (q, 0).
Proof.
  intros Hb ->.
  generalize (Z.div_eucl_eq (b * q) b ltac:(lia)) (Z.mod_pos_bound (b * q) b Hb).
  unfold Z.modulo. destruct (Z.div_eucl (b * q) b) as [q' r']. intros E B.
  assert (r' = 0 /\ q' = q) as [-> ->]; [|reflexivity].
  assert (b * (q - q') = r') by lia.
  assert (q - q' = 0) by nia. split; nia.
Qed.

Lemma div_eucl_bounds (a b : Z) :
  0 <= a -> 0 < b ->
  let '(q, r) := Z.div_eucl a b in a = b * q + r /\ 0 <= r < b /\ 0 <= q.
Proof.
  intros Ha Hb.
  generalize (Z.div_eucl_eq a b ltac:(lia)) (Z.mod_pos_bound a b Hb).
  unfold Z.modulo. destruct (Z.div_eucl a b) as [q r]. intros E B.
  repeat split; try lia. nia.
Qed.

Lemma digits2_pos_size (p : positive) : digits2_pos p = Pos.size p.
Proof. induction p; simpl; congruence. Qed.

Lemma digits2_pos_bound (p : positive) (n : Z) :
  0 <= n -> Z.pos p <= 2 ^ n -> Z.pos (digits2_pos p) <= n + 1.
Proof.
  intros Hn Hp. rewrite digits2_pos_size.
  pose proof (Pos.size_le p) as Hs.
  apply Pos2Z.pos_le_pos in Hs. rewrite Pos2Z.inj_pow in Hs.
  change (Z.pos p~0) with (2 * Z.pos p) in Hs.
  assert (2 ^ Z.pos (Pos.size p) <= 2 ^ (n + 1)) as H
    by (rewrite Z.pow_add_r by lia; lia).
  apply Z.pow_le_mono_r_iff in H; lia.
Qed.

Lemma digits2_pos_gt (p : positive) : Z.pos p < 2 ^ Z.pos (digits2_pos p).
Proof.
  rewrite digits2_pos_size.
  pose proof (Pos.size_gt p) as Hs.
  apply Pos2Z.pos_lt_pos in Hs. now rewrite Pos2Z.inj_pow in Hs.
Qed.

Lemma Zdigits2_small (mz : Z) : 0 <= mz <= 2 ^ 52 -> 0 <= Zdigits2 mz <= 53.
Proof.
  destruct mz as [|p|p]; simpl; try lia.
  intros [_ H]. split; [lia|]. now apply (digits2_pos_bound p 52).
Qed.

(** *** Rounding at the smallest exponent *)

Lemma shr_fexp_emin (mz : Z) (l : location) :
  0 <= Zdigits2 mz <= 53 ->
  shr_fexp prec emax mz (-1074) l = (shr_record_of_loc mz l, -1074).
Proof.
  intros H. unfold shr_fexp.
  replace (fexp prec emax (Zdigits2 mz + -1074) - -1074) with 0
    by (unfold fexp, emin, prec, emax; lia).
  reflexivity.
Qed.

Lemma shr_record_of_loc_m (mz : Z) (l : location) :
  shr_m (shr_record_of_loc mz l) = mz.
Proof. now destruct l as [|[]]. Qed.

Lemma loc_of_shr_record_of_loc (mz : Z) (l : location) :
  loc_of_shr_record (shr_record_of_loc mz l) = l.
Proof. now destruct l as [|[]]. Qed.

Lemma round_nearest_even_bounds (mz : Z) (l : location) :
  mz <= round_nearest_even mz l <= mz + 1.
Proof. destruct l as [|[]]; simpl; try lia. destruct (Z.even mz); lia. Qed.

Lemma binary_round_aux_emin (sx : bool) (mz : Z) (l : location) :
  0 <= mz < 2 ^ 52 ->
  binary_round_aux prec emax sx mz (-1074) l = S754_zero sx \/
  exists m', binary_round_aux prec emax sx mz (-1074) l = S754_finite sx m' (-1074).
Proof.
  intros H. unfold binary_round_aux.
  rewrite shr_fexp_emin by (apply Zdigits2_small; lia).
  rewrite shr_record_of_loc_m, loc_of_shr_record_of_loc.
  pose proof (round_nearest_even_bounds mz l) as Hr.
  rewrite shr_fexp_emin by (apply Zdigits2_small; lia).
  rewrite shr_record_of_loc_m.
  destruct (round_nearest_even mz l) as [|p|p]; [now left| |lia].
  right. exists p. reflexivity.
Qed.

(** *** Division by two *)

Ltac unfold_div_two m :=
  unfold SFdiv, two_sf, SFdiv_core_binary;
  change (Zdigits2 (Z.pos m)) with (Z.pos (digits2_pos m));
  change (Zdigits2 4503599627370496) with 53.

(** A normal number whose half is normal: the exponent drops by one. *)
Lemma SFdiv_two_normal (m : positive) (e : Z) :
  digits2_pos m = 53%positive -> -1072 <= e -> e <= 972 ->
  SFdiv prec emax (S754_finite false m e) two_sf = S754_finite false m (e - 1).
Proof.
  intros Hd Hlo Hhi.
  unfold_div_two m. rewrite Hd.
  replace (Z.min _ _) with (e - 2) by (unfold fexp, emin, prec, emax; lia).
  replace (e - -51 - (e - 2)) with 53 by lia.
  rewrite Z.shiftl_mul_pow2 by lia.
  rewrite (div_eucl_exact (Z.pos m * 2 ^ 53) 4503599627370496 (Z.pos m~0)) by lia.
  change (new_location 4503599627370496 0) with loc_Exact.
  unfold binary_round_aux, shr_fexp at 1.
  change (Zdigits2 (Z.pos m~0)) with (Z.pos (Pos.succ (digits2_pos m))). rewrite Hd.
  replace (fexp prec emax (Z.pos (Pos.succ 53) + (e - 2)) - (e - 2)) with 1
    by (unfold fexp, emin, prec, emax; lia).
  cbn [shr shr_record_of_loc iter_pos shr_1 shr_m loc_of_shr_record
       round_nearest_even orb xorb].
  unfold shr_fexp.
  change (Zdigits2 (Z.pos m)) with (Z.pos (digits2_pos m)). rewrite Hd.
  replace (fexp prec emax (53 + (e - 2 + 1)) - (e - 2 + 1)) with 0
    by (unfold fexp, emin, prec, emax; lia).
  cbn [shr shr_record_of_loc shr_m xorb].
  replace (e - 2 + 1 <=? emax - prec) with true
    by (symmetry; apply Z.leb_le; unfold prec, emax; lia).
  f_equal. lia.
Qed.

(** The smallest normal numbers: the half is subnormal, still exact. *)
Lemma SFdiv_two_emin_succ (m : positive) :
  digits2_pos m = 53%positive ->
  SFdiv prec emax (S754_finite false m (-1073)) two_sf = S754_finite false m (-1074).
Proof.
  intros Hd.
  unfold_div_two m. rewrite Hd.
  change (Z.min _ _) with (-1074).
  change (-1073 - -51 - -1074) with 52.
  rewrite Z.shiftl_mul_pow2 by lia.
  rewrite (div_eucl_exact (Z.pos m * 2 ^ 52) 4503599627370496 (Z.pos m)) by lia.
  change (new_location 4503599627370496 0) with loc_Exact.
  unfold binary_round_aux, shr_fexp.
  change (Zdigits2 (Z.pos m)) with (Z.pos (digits2_pos m)). rewrite Hd.
  change (fexp prec emax (53 + -1074) - -1074) with 0.
  cbn [shr shr_record_of_loc iter_pos shr_1 shr_m loc_of_shr_record
       round_nearest_even orb xorb].
  change (Zdigits2 (Z.pos m)) with (Z.pos (digits2_pos m)). rewrite Hd.
  change (fexp prec emax (53 + -1074) - -1074) with 0.
  reflexivity.
Qed.

(** At the smallest exponent the half is rounded, and stays there. *)
Lemma SFdiv_two_emin (m : positive) :
  Z.pos (digits2_pos m) <= 53 ->
  SFdiv prec emax (S754_finite false m (-1074)) two_sf = S754_zero false \/
  exists m',
    SFdiv prec emax (S754_finite false m (-1074)) two_sf = S754_finite false m' (-1074).
Proof.
  intros Hd.
  unfold_div_two m.
  replace (Z.min _ _) with (-1074) by (unfold fexp, emin, prec, emax; lia).
  change (-1074 - -51 - -1074) with 51.
  rewrite Z.shiftl_mul_pow2 by lia.
  assert (Z.pos m < 2 ^ 53) as Hm.
  { eapply Z.lt_le_trans; [apply digits2_pos_gt|]. apply Z.pow_le_mono_r; lia. }
  pose proof (div_eucl_bounds (Z.pos m * 2 ^ 51) 4503599627370496
                ltac:(lia) ltac:(lia)) as Hq.
  destruct (Z.div_eucl (Z.pos m * 2 ^ 51) 4503599627370496) as [q r].
  destruct Hq as (E & Hr & Hq).
  apply (binary_round_aux_emin (xorb false false)). lia.
Qed.

(** Halving keeps the unit interval inside its lower half. *)
Lemma SFdiv_two_unit_interval (P : spec_float) :
  valid_binary P = true ->
  SFleb zero_sf P = true -> SFleb P one_sf = true ->
  SFleb zero_sf (SFdiv prec emax P two_sf) = true /\
  SFleb (SFdiv prec emax P two_sf) half_sf = true.
Proof.
  intros Hv H0 H1.
  destruct P as [s|s| |s m e]; try discriminate.
  - now destruct s.
  - destruct s; discriminate.
  - destruct s; [discriminate|].
    unfold valid_binary, bounded, canonical_mantissa in Hv.
    apply andb_prop in Hv as [Hc Hb].
    apply Z.eqb_eq in Hc. apply Z.leb_le in Hb.
    unfold fexp, emin, prec, emax in Hc, Hb.
    unfold SFleb, one_sf in H1. cbn [SFcompare] in H1.
    destruct (Z.compare_spec e (-52)) as [He|He|He]; try discriminate.
    + assert (digits2_pos m = 53%positive) as Hd by lia.
      rewrite SFdiv_two_normal by lia. subst e.
      unfold SFleb, zero_sf, half_sf. cbn [SFcompare].
      split; [reflexivity|].
      change (-52 - 1 ?= -53) with Eq. cbv iota.
      destruct (Pos.compare_cont Eq m 4503599627370496); congruence.
    + destruct (Z_le_gt_dec (-1072) e) as [Hn|Hs].
      * assert (digits2_pos m = 53%positive) as Hd by lia.
        rewrite SFdiv_two_normal by lia.
        unfold SFleb, zero_sf, half_sf. cbn [SFcompare]. split; [reflexivity|].
        destruct (Z.compare_spec (e - 1) (-53)); try reflexivity; lia.
      * assert (e = -1073 \/ e = -1074) as [->| ->] by lia.
        -- assert (digits2_pos m = 53%positive) as Hd by lia.
           rewrite SFdiv_two_emin_succ by assumption. now split.
        -- destruct (SFdiv_two_emin m) as [->|[m' ->]]; [lia| |]; now split.
Qed.

Lemma halve_unit_interval (p : float) :
  (0 <=? p)%float = true -> (p <=? 1)%float = true ->
  (0 <=? p / 2)%float = true /\ (p / 2 <=? 0.5)%float = true.
Proof.
  rewrite !leb_spec, div_spec.
  apply SFdiv_two_unit_interval, Prim2SF_valid.
Qed.

End IEEE.

(** ** Facts on the binary64 square root and on conversion from [int] *)

Module Root.

Lemma shr_1_nonneg (mrs : shr_record) : 0 <= shr_m mrs -> 0 <= shr_m (shr_1 mrs).
Proof.
  destruct mrs as [m r s]. simpl.
  destruct m as [|[p|p|]|p]; simpl; lia.
Qed.

Lemma iter_shr_1_nonneg (p : positive) (mrs : shr_record) :
  0 <= shr_m mrs -> 0 <= shr_m (iter_pos shr_1 p mrs).
Proof.
  revert mrs. induction p as [p IH|p IH|]; intros mrs H; simpl.
  - apply IH, IH, shr_1_nonneg, H.
  - apply IH, IH, H.
  - apply shr_1_nonneg, H.
Qed.

Lemma shr_fexp_nonneg (m e : Z) (l : location) :
  0 <= m -> 0 <= shr_m (fst (shr_fexp prec emax m e l)).
Proof.
  intros H. unfold shr_fexp, shr.
  destruct (fexp prec emax (Zdigits2 m + e) - e) as [|p|p]; simpl;
    try (now rewrite IEEE.shr_record_of_loc_m).
  apply iter_shr_1_nonneg. now rewrite IEEE.shr_record_of_loc_m.
Qed.

(** Rounding a mantissa that is not negative gives a number that is not
    negative (a zero, a positive number or plus infinity). *)
Lemma binary_round_aux_nonneg (mz ez : Z) (l : location) :
  0 <= mz -> SFleb zero_sf (binary_round_aux prec emax false mz ez l) = true.
Proof.
  intros H. unfold binary_round_aux.
  pose proof (shr_fexp_nonneg mz ez l H) as H1.
  destruct (shr_fexp prec emax mz ez l) as [mrs' e']. simpl in H1.
  pose proof (IEEE.round_nearest_even_bounds (shr_m mrs') (loc_of_shr_record mrs')) as B.
  pose proof (shr_fexp_nonneg (round_nearest_even (shr_m mrs') (loc_of_shr_record mrs'))
                e' loc_Exact ltac:(lia)) as H2.
  destruct (shr_fexp prec emax _ e' loc_Exact) as [mrs'' e'']. simpl in H2.
  destruct (shr_m mrs'') as [|p|p]; [reflexivity| |lia].
  now destruct (e'' <=? emax - prec).
Qed.

Lemma SFsqrt_nonneg (a : spec_float) :
  SFleb zero_sf a = true -> SFleb zero_sf (SFsqrt prec emax a) = true.
Proof.
  destruct a as [s|s| |s m e]; try discriminate.
  - now destruct s.
  - now destruct s.
  - destruct s; [discriminate|]. intros _.
    unfold SFsqrt, SFsqrt_core_binary.
    set (m' := match _ with Z.pos _ => _ | _ => _ end).
    pose proof (Z.sqrtrem_sqrt m') as Q. pose proof (Z.sqrt_nonneg m') as N.
    destruct (Z.sqrtrem m') as [q r]. simpl in Q. subst q.
    now apply binary_round_aux_nonneg.
Qed.

(** The square root of a number that is not negative is not negative. *)
Lemma sqrt_nonneg (c : float) :
  (0 <=? c)%float = true -> (0 <=? sqrt c)%float = true.
Proof.
  rewrite !leb_spec, sqrt_spec. apply SFsqrt_nonneg.
Qed.




End Root.

(** ** The guards *)

Section Guards.

Variables TS dof : value.

Lemma ge_zero_not_lt : ge_zero TS = true -> lt_zero TS = false.
Proof.
  destruct TS as [n|x]; simpl.
  - intros H%Z.leb_le. apply Z.ltb_ge, H.
  - apply IEEE.leb_not_gtb.
Qed.

Lemma le_1400_not_gt : le_1400 TS = true -> gt_1400 TS = false.
Proof.
  destruct TS as [n|x]; simpl.
  - intros H%Z.leb_le. apply Z.ltb_ge, H.
  - apply IEEE.leb_not_gtb.
Qed.

Lemma gt_1400_not_lt_zero : gt_1400 TS = true -> lt_zero TS = false.
Proof.
  destruct TS as [n|x]; simpl.
  - intros H%Z.ltb_lt. apply Z.ltb_ge. lia.
  - apply IEEE.gt_1400_not_neg.
Qed.

Lemma eq_zero_guards : eq_zero TS = true -> lt_zero TS = false /\ gt_1400 TS = false.
Proof.
  destruct TS as [n|x]; simpl.
  - intros ->%Z.eqb_eq. now split.
  - apply IEEE.eqb_zero_cmp.
Qed.

(** Past the guards the function is one of its two numerical paths. *)
Lemma sigma_past_guards :
  rejected_by_guards TS dof = false ->
  sigma TS dof =
    if gt_1400 TS then call (np_sqrt TS)
    else Call (chi2_sf TS dof) (fun p => call (norm_isf (p / 2)%float)).
Proof.
  unfold rejected_by_guards, sigma, raise_if.
  intros H. apply orb_false_elim in H as [H H3].
  apply orb_false_elim in H as [H1 H2].
  rewrite H1, H2, H3. simpl. now destruct (gt_1400 TS).
Qed.

(** A failing guard raises at once. *)
Lemma sigma_at_guards :
  rejected_by_guards TS dof = true ->
  exists msg : string, sigma TS dof = Raise (Exn ValueError msg).
Proof.
  unfold rejected_by_guards, sigma, raise_if. intros H.
  destruct (lt_zero TS); [now exists msg_TS|].
  destruct (le_zero dof); [now exists msg_dof_positive|].
  destruct (isinstance_int dof); [discriminate|now exists msg_dof_integer].
Qed.

End Guards.

Lemma guards_accept (TS : value) (d : Z) :
  lt_zero TS = false -> 0 < d -> rejected_by_guards TS (PyInt d) = false.
Proof.
  intros H1 Hd. unfold rejected_by_guards. rewrite H1. simpl.
  rewrite orb_false_r. apply Z.leb_gt, Hd.
Qed.

(** ** Libraries that may raise *)

(** Against a library that answers every call, [exec] is [run] and the
    calls made are the same. *)
Lemma exec_answering {A : Type} (L : stats_lib) (m : prog A) :
  exec (answering L) m = run L m.
Proof. induction m as [a|e|c k IH]; simpl; auto. Qed.

Lemma trace_answering {A : Type} (L : stats_lib) (m : prog A) :
  trace (answering L) m = calls L m.
Proof. induction m as [a|e|c k IH]; simpl; auto using f_equal. Qed.

(** A call that raises: the stand-in refuses the [int] 2^64, which
    passes the three guards, and its exception leaves [sigma]. *)
Lemma refused_int_reaches_caller :
  rejected_by_guards (PyInt (2 ^ 64)) (PyInt 3) = false /\
  exec (sqrt_lib 1 0) (sigma (PyInt (2 ^ 64)) (PyInt 3)) =
    Raised (Exn TypeError msg_int_range) /\
  trace (sqrt_lib 1 0) (sigma (PyInt (2 ^ 64)) (PyInt 3)) =
    np_sqrt (PyInt (2 ^ 64)) :: nil.
Proof. repeat split. Qed.


(** Rewrites [sigma TS (PyInt d)] into its numerical path, given a
    hypothesis that puts [TS] on the right side of zero. *)
Ltac past_guards :=
  rewrite !sigma_past_guards
    by (apply guards_accept;
        auto using ge_zero_not_lt, gt_1400_not_lt_zero).

(** ** Validation *)

(** C1 (as amended): [sigma] fails before any library call exactly when
    one of its three guards fires, that is when [TS < 0], or [dof <= 0],
    or [dof] is not of type [int]; the exception is then a [ValueError].
    The function raises nothing else of its own: any other exception
    that leaves it was raised by one of the library calls it made.  On
    every other input, when the library answers the calls made, the
    function returns a number. *)
Theorem sigma_validation (P : py_lib) (TS dof : value) :
  ((exists e, exec P (sigma TS dof) = Raised e /\ trace P (sigma TS dof) = nil) <->
   rejected_by_guards TS dof = true) /\
  (rejected_by_guards TS dof = true ->
   exists msg, exec P (sigma TS dof) = Raised (Exn ValueError msg)) /\
  (forall e, exec P (sigma TS dof) = Raised e ->
     (exn_kind e = ValueError /\ sigma TS dof = Raise e) \/
     (exists c, In c (trace P (sigma TS dof)) /\ py_answer P c = Raised e)) /\
  (rejected_by_guards TS dof = false ->
   (forall c, In c (trace P (sigma TS dof)) -> exists r, py_answer P c = Returned r) ->
   exists s, exec P (sigma TS dof) = Returned s).
Proof.
  destruct (rejected_by_guards TS dof) eqn:G.
  - destruct (sigma_at_guards TS dof G) as [msg E]. rewrite E. simpl.
    repeat split; eauto; try discriminate.
    intros e [= <-]. now left.
  - rewrite (sigma_past_guards TS dof G).
    destruct (gt_1400 TS); simpl.
    + repeat split; try discriminate.
      * now intros [e [_ H]].
      * intros e H. right. exists (np_sqrt TS). split; [now left|].
        now destruct (py_answer P (np_sqrt TS)).
      * intros _ H. destruct (H (np_sqrt TS)) as [r E]; [now left|].
        rewrite E. eauto.
    + repeat split; try discriminate.
      * now intros [e [_ H]].
      * intros e H. right.
        destruct (py_answer P (chi2_sf TS dof)) as [p|e1] eqn:E1.
        -- exists (norm_isf (p / 2)%float). split; [right; now left|].
           now destruct (py_answer P (norm_isf (p / 2)%float)).
        -- exists (chi2_sf TS dof). split; [now left|congruence].
      * intros _ H. destruct (H (chi2_sf TS dof)) as [p E1]; [now left|].
        rewrite E1 in H |- *.
        destruct (H (norm_isf (p / 2)%float)) as [r E2]; [right; now left|].
        rewrite E2. eauto.
Qed.

(** C1 (as stated) fails at [sigma(25, 4.0)]: 25 is not negative, 4.0 is
    positive and its value is integral, and yet the call raises. *)
Lemma integral_float_dof_rejected :
  rejected_by_value (PyInt 25) (PyFloat 4) = false /\
  sigma (PyInt 25) (PyFloat 4) = Raise (Exn ValueError msg_dof_integer).
Proof. split; reflexivity. Qed.

(** C9: a [dof] of type [float] is always rejected with a [ValueError],
    whatever its value; when the first two guards pass, it is the type
    guard that raises.  So [sigma(25, 4.0)] fails although 4.0 is an
    integral value. *)
Theorem sigma_rejects_float_dof :
  (forall (TS : value) (x : float),
      exists msg, sigma TS (PyFloat x) = Raise (Exn ValueError msg)) /\
  (forall (TS : value) (x : float),
      lt_zero TS = false -> le_zero (PyFloat x) = false ->
      sigma TS (PyFloat x) = Raise (Exn ValueError msg_dof_integer)) /\
  integral_value (PyFloat 4) = true /\
  sigma (PyInt 25) (PyFloat 4) = Raise (Exn ValueError msg_dof_integer).
Proof.
  repeat split.
  - intros TS x. apply sigma_at_guards. unfold rejected_by_guards. simpl.
    now rewrite orb_true_r.
  - intros TS x H1 H2. unfold sigma, raise_if. now rewrite H1, H2.
Qed.

(** ** The two numerical paths *)

(** C2: for [0 <= TS <= 1400] and a positive [int] [dof], [sigma] is
    the expression [norm.isf(chi2.sf(TS, dof) / 2)]: it asks the library
    for the chi-squared tail probability, halves it, and asks for the
    normal inverse survival function of the half, in that order, and
    returns that answer.  Should one of the two calls raise, so does
    the expression, and [sigma] with it. *)
Theorem sigma_general_case (P : py_lib) (TS : value) (d : Z) :
  ge_zero TS = true -> le_1400 TS = true -> 0 < d ->
  exec P (sigma TS (PyInt d)) = exact_expression P TS (PyInt d) /\
  (forall p s : float,
     py_answer P (chi2_sf TS (PyInt d)) = Returned p ->
     py_answer P (norm_isf (p / 2)%float) = Returned s ->
     exec P (sigma TS (PyInt d)) = Returned s /\
     trace P (sigma TS (PyInt d)) =
       chi2_sf TS (PyInt d) :: norm_isf (p / 2)%float :: nil).
Proof.
  intros H0 H1 Hd. past_guards.
  rewrite (le_1400_not_gt TS H1). unfold exact_expression. simpl. split.
  - destruct (py_answer P (chi2_sf TS (PyInt d))) as [p|e]; [|reflexivity].
    now destruct (py_answer P (norm_isf (p / 2)%float)).
  - intros p s -> ->. now split.
Qed.

Lemma sigma_general_case_witness :
  exec (sqrt_lib 1 0) (sigma (PyFloat 0x1.3cccccccccccdp+4) (PyInt 2)) =
    exact_expression (sqrt_lib 1 0) (PyFloat 0x1.3cccccccccccdp+4) (PyInt 2) /\
  exec (sqrt_lib 1 0) (sigma (PyFloat 0x1.3cccccccccccdp+4) (PyInt 2)) = Returned 0%float /\
  trace (sqrt_lib 1 0) (sigma (PyFloat 0x1.3cccccccccccdp+4) (PyInt 2)) =
    chi2_sf (PyFloat 0x1.3cccccccccccdp+4) (PyInt 2) :: norm_isf 0.5 :: nil.
Proof.
  destruct (sigma_general_case (sqrt_lib 1 0) (PyFloat 0x1.3cccccccccccdp+4) 2)
    as [E H]; [reflexivity|reflexivity|reflexivity|].
  split; [exact E|].
  apply (H 1%float 0%float); reflexivity.
Defined.

(** C3: for [TS > 1400] and a positive [int] [dof], [sigma] is the call
    [np.sqrt(TS)]: it returns what that call answers (and raises if the
    call does), and makes no other library call.  [sigma(2000, 3)] is
    such a call: with a library whose square root of 2000 is the
    binary64 one, the result is 44.72 to two decimals. *)
Theorem sigma_large_TS (P : py_lib) (TS : value) (d : Z) :
  gt_1400 TS = true -> 0 < d ->
  (exec P (sigma TS (PyInt d)) = py_answer P (np_sqrt TS) /\
   trace P (sigma TS (PyInt d)) = np_sqrt TS :: nil) /\
  (py_answer P (np_sqrt (PyInt 2000)) = Returned (sqrt 2000) ->
   exists r, exec P (sigma (PyInt 2000) (PyInt 3)) = Returned r /\
             trace P (sigma (PyInt 2000) (PyInt 3)) = np_sqrt (PyInt 2000) :: nil /\
             prints_44_72 r = true).
Proof.
  intros H Hd. split.
  - past_guards. rewrite H. simpl.
    now destruct (py_answer P (np_sqrt TS)).
  - intros E. exists (sqrt 2000). simpl. rewrite E. now repeat split.
Qed.

Lemma sigma_large_TS_witness :
  exists r, exec (sqrt_lib 1 0) (sigma (PyInt 2000) (PyInt 3)) = Returned r /\
            trace (sqrt_lib 1 0) (sigma (PyInt 2000) (PyInt 3)) =
              np_sqrt (PyInt 2000) :: nil /\
            prints_44_72 r = true.
Proof.
  apply (sigma_large_TS (sqrt_lib 1 0) (PyInt 2000) 3); reflexivity.
Defined.

(** C8: for [TS > 1400] the result does not depend on the degrees of
    freedom: for positive [int]s [dof1] and [dof2] the two calls are the
    same computation, whose one library call, [np.sqrt(TS)], does not
    mention [dof]. *)
Theorem dof_unused_above_1400 (L : stats_lib) (TS : value) (d1 d2 : Z) :
  gt_1400 TS = true -> 0 < d1 -> 0 < d2 ->
  sigma TS (PyInt d1) = sigma TS (PyInt d2) /\
  run L (sigma TS (PyInt d1)) = run L (sigma TS (PyInt d2)) /\
  calls L (sigma TS (PyInt d1)) = np_sqrt TS :: nil.
Proof.
  intros H H1 H2. past_guards. rewrite H. repeat split.
Qed.

Lemma dof_unused_above_1400_witness :
  sigma (PyInt 2000) (PyInt 3) = sigma (PyInt 2000) (PyInt 4) /\
  run (const_lib 1 1 0) (sigma (PyInt 2000) (PyInt 3)) =
    run (const_lib 1 1 0) (sigma (PyInt 2000) (PyInt 4)) /\
  calls (const_lib 1 1 0) (sigma (PyInt 2000) (PyInt 3)) = np_sqrt (PyInt 2000) :: nil.
Proof.
  apply (dof_unused_above_1400 (const_lib 1 1 0) (PyInt 2000) 3 4); reflexivity.
Defined.

(** ** The value returned *)

(** C10: at [TS = 0] and a positive [int] [dof], with a library whose
    [chi2.sf(0, dof)] is 1 and whose [norm.isf(0.5)] is 0, [sigma]
    returns 0: the half of 1 is the binary64 number 0.5. *)
Theorem sigma_at_zero (L : stats_lib) (TS : value) (d : Z) :
  eq_zero TS = true -> 0 < d ->
  lib_chi2_sf L TS (PyInt d) = 1%float ->
  (lib_norm_isf L 0.5 =? 0)%float = true ->
  exists s, run L (sigma TS (PyInt d)) = Returned s /\ (s =? 0)%float = true.
Proof.
  intros H0 Hd Hsf Hisf. destruct (eq_zero_guards TS H0) as [Hlt Hgt].
  rewrite sigma_past_guards by now apply guards_accept.
  rewrite Hgt. simpl. rewrite Hsf.
  change (1 / 2)%float with 0.5%float. eauto.
Qed.

Lemma sigma_at_zero_witness :
  exists s, run (const_lib 0 1 0) (sigma (PyInt 0) (PyInt 4)) = Returned s /\
            (s =? 0)%float = true.
Proof.
  apply (sigma_at_zero (const_lib 0 1 0) (PyInt 0) 4); reflexivity.
Defined.




(** * Beyond the specification: edge values, library calls, the example cell *)

(** ** More on binary64 comparison: NaN and totality *)

Module Compare.

Lemma SFcompare_refl (a : spec_float) : a <> S754_nan -> SFcompare a a = Some Eq.
Proof.
  destruct a as [s|s| |s m e]; simpl; try congruence.
  - now destruct s.
  - intros _. fold (Pos.compare m m).
    rewrite Z.compare_refl, Pos.compare_refl. now destruct s.
Qed.

Lemma SFcompare_none (a b : spec_float) :
  SFcompare a b = None -> a = S754_nan \/ b = S754_nan.
Proof.
  destruct a as [sa|sa| |sa ma ea], b as [sb|sb| |sb mb eb]; simpl;
    try discriminate; auto.
Qed.

Lemma is_nan_spec (x : float) : is_nan x = true <-> Prim2SF x = S754_nan.
Proof.
  unfold is_nan. rewrite eqb_spec. unfold SFeqb. split.
  - intros H. destruct (Prim2SF x) as [s|s| |s m e] eqn:E; try reflexivity;
      rewrite SFcompare_refl in H by discriminate; discriminate.
  - now intros ->.
Qed.

Lemma is_nan_cmp (x y : float) :
  SFcompare (Prim2SF x) (Prim2SF y) = None -> is_nan x = true \/ is_nan y = true.
Proof.
  intros [H|H]%SFcompare_none; [left|right]; now apply is_nan_spec.
Qed.

Lemma not_ltb (x y : float) :
  (x <? y)%float = false ->
  (y <=? x)%float = true \/ is_nan x = true \/ is_nan y = true.
Proof.
  rewrite ltb_spec, leb_spec. unfold SFltb, SFleb.
  rewrite (IEEE.SFcompare_swap (Prim2SF x) (Prim2SF y)).
  destruct (SFcompare (Prim2SF x) (Prim2SF y)) as [[ | | ]|] eqn:E; simpl;
    try discriminate; auto.
  intros _. right. now apply is_nan_cmp.
Qed.

Lemma not_leb (x y : float) :
  (x <=? y)%float = false ->
  (y <? x)%float = true \/ is_nan x = true \/ is_nan y = true.
Proof.
  rewrite ltb_spec, leb_spec. unfold SFltb, SFleb.
  rewrite (IEEE.SFcompare_swap (Prim2SF x) (Prim2SF y)).
  destruct (SFcompare (Prim2SF x) (Prim2SF y)) as [[ | | ]|] eqn:E; simpl;
    try discriminate; auto.
  intros _. right. now apply is_nan_cmp.
Qed.

Lemma ltb_not_nan (x y : float) :
  (x <? y)%float = true -> is_nan x = false /\ is_nan y = false.
Proof.
  rewrite ltb_spec. unfold SFltb. intros H.
  split; apply not_true_is_false; intros N%is_nan_spec; rewrite N in H.
  - discriminate.
  - now destruct (Prim2SF x).
Qed.

Lemma leb_not_nan (x y : float) :
  (x <=? y)%float = true -> is_nan x = false /\ is_nan y = false.
Proof.
  rewrite leb_spec. unfold SFleb. intros H.
  split; apply not_true_is_false; intros N%is_nan_spec; rewrite N in H.
  - discriminate.
  - now destruct (Prim2SF x).
Qed.

Lemma nan_cmp_false (x y : float) :
  is_nan x = true ->
  (x <? y)%float = false /\ (y <? x)%float = false /\
  (x <=? y)%float = false /\ (y <=? x)%float = false.
Proof.
  intros N%is_nan_spec. rewrite !ltb_spec, !leb_spec. unfold SFltb, SFleb.
  rewrite N. repeat split; try reflexivity; now destruct (Prim2SF y).
Qed.

End Compare.


(** ** Where a [TS] lies *)

Section Domain.

Variable TS : value.

Lemma lt_zero_not_nan : lt_zero TS = true -> nan_value TS = false.
Proof.
  destruct TS as [n|x]; simpl; [reflexivity|]. apply Compare.ltb_not_nan.
Qed.

Lemma gt_1400_not_nan : gt_1400 TS = true -> nan_value TS = false.
Proof.
  destruct TS as [n|x]; simpl; [reflexivity|]. apply Compare.ltb_not_nan.
Qed.

Lemma nan_value_guards :
  nan_value TS = true -> lt_zero TS = false /\ gt_1400 TS = false.
Proof.
  destruct TS as [n|x]; simpl; [discriminate|].
  intros N. now destruct (Compare.nan_cmp_false x 0 N) as (? & _),
              (Compare.nan_cmp_false x 1400 N) as (_ & ? & _).
Qed.

(** Between the two thresholds, or not a number at all. *)
Lemma between_thresholds :
  lt_zero TS = false -> gt_1400 TS = false ->
  ge_zero TS && le_1400 TS = true \/ nan_value TS = true.
Proof.
  destruct TS as [n|x]; simpl.
  - intros H1%Z.ltb_ge H2%Z.ltb_ge. left.
    apply andb_true_intro. split; now apply Z.leb_le.
  - intros H1 H2.
    destruct (Compare.not_ltb _ _ H1) as [L1|[N|N]];
      destruct (Compare.not_ltb _ _ H2) as [L2|[N'|N']]; auto;
      try discriminate N; try discriminate N'.
    left. now rewrite L1, L2.
Qed.

End Domain.

Lemma float_positive_or_nan (x : float) :
  (x <=? 0)%float = false <-> (0 <? x)%float = true \/ is_nan x = true.
Proof.
  split.
  - intros [H|[N|N]]%Compare.not_leb; auto. discriminate N.
  - intros [H|N].
    + apply not_true_is_false. intros L%IEEE.leb_not_gtb. congruence.
    + now destruct (Compare.nan_cmp_false x 0 N) as (_ & _ & ? & _).
Qed.

Lemma positive_int (v : value) :
  isinstance_int v = true -> le_zero v = false -> positive_value v = true.
Proof.
  destruct v as [n|x]; simpl; [|discriminate].
  intros _ H%Z.leb_gt. now apply Z.ltb_lt.
Qed.

(** The only [norm.isf] call is on the half of [chi2.sf]'s answer. *)
Lemma norm_isf_call (L : stats_lib) (TS dof : value) (q : float) :
  In (norm_isf q) (calls L (sigma TS dof)) ->
  q = (lib_chi2_sf L TS dof / 2)%float.
Proof.
  destruct (rejected_by_guards TS dof) eqn:G.
  - destruct (sigma_at_guards TS dof G) as [msg ->]. intros [].
  - rewrite (sigma_past_guards TS dof G).
    destruct (gt_1400 TS); simpl.
    + intros [[=]|[]].
    + now intros [[=]|[[=]|[]]].
Qed.

(** ** More on the division by two *)

Module Halving.

Import IEEE.

Lemma SFdiv_two_signed (s : bool) (m : positive) (e : Z) :
  digits2_pos m = 53%positive -> -1073 <= e -> e <= 972 ->
  SFdiv prec emax (S754_finite s m e) two_sf = S754_finite s m (e - 1).
Proof.
  intros Hd Hlo Hhi.
  destruct (Z.eq_dec e (-1073)) as [->|Hne].
  - unfold_div_two m. rewrite Hd.
    change (Z.min _ _) with (-1074).
    change (-1073 - -51 - -1074) with 52.
    rewrite Z.shiftl_mul_pow2 by lia.
    rewrite (div_eucl_exact (Z.pos m * 2 ^ 52) 4503599627370496 (Z.pos m)) by lia.
    change (new_location 4503599627370496 0) with loc_Exact.
    unfold binary_round_aux, shr_fexp.
    change (Zdigits2 (Z.pos m)) with (Z.pos (digits2_pos m)). rewrite Hd.
    change (fexp prec emax (53 + -1074) - -1074) with 0.
    cbn [shr shr_record_of_loc iter_pos shr_1 shr_m loc_of_shr_record
         round_nearest_even orb].
    change (Zdigits2 (Z.pos m)) with (Z.pos (digits2_pos m)). rewrite Hd.
    change (fexp prec emax (53 + -1074) - -1074) with 0.
    cbn [shr shr_m]. rewrite xorb_false_r. reflexivity.
  - unfold_div_two m. rewrite Hd.
    replace (Z.min _ _) with (e - 2) by (unfold fexp, emin, prec, emax; lia).
    replace (e - -51 - (e - 2)) with 53 by lia.
    rewrite Z.shiftl_mul_pow2 by lia.
    rewrite (div_eucl_exact (Z.pos m * 2 ^ 53) 4503599627370496 (Z.pos m~0)) by lia.
    change (new_location 4503599627370496 0) with loc_Exact.
    unfold binary_round_aux, shr_fexp at 1.
    change (Zdigits2 (Z.pos m~0)) with (Z.pos (Pos.succ (digits2_pos m))). rewrite Hd.
    replace (fexp prec emax (Z.pos (Pos.succ 53) + (e - 2)) - (e - 2)) with 1
      by (unfold fexp, emin, prec, emax; lia).
    cbn [shr shr_record_of_loc iter_pos shr_1 shr_m loc_of_shr_record
         round_nearest_even orb].
    unfold shr_fexp.
    change (Zdigits2 (Z.pos m)) with (Z.pos (digits2_pos m)). rewrite Hd.
    replace (fexp prec emax (53 + (e - 2 + 1)) - (e - 2 + 1)) with 0
      by (unfold fexp, emin, prec, emax; lia).
    cbn [shr shr_record_of_loc shr_m].
    replace (e - 2 + 1 <=? emax - prec) with true
      by (symmetry; apply Z.leb_le; unfold prec, emax; lia).
    rewrite xorb_false_r. f_equal. lia.
Qed.

(** The exponent of a valid number, and its bit length when it is not at
    the smallest exponent. *)
Lemma valid_finite (s : bool) (m : positive) (e : Z) :
  valid_binary (S754_finite s m e) = true ->
  -1074 <= e <= 971 /\ Z.pos (digits2_pos m) <= 53 /\
  (-1074 < e -> digits2_pos m = 53%positive).
Proof.
  unfold valid_binary, bounded, canonical_mantissa.
  intros [Hc Hb]%andb_prop. apply Z.eqb_eq in Hc. apply Z.leb_le in Hb.
  unfold fexp, emin, prec, emax in Hc, Hb. lia.
Qed.

Lemma halve_exact (p : float) (s : bool) (m : positive) (e : Z) :
  Prim2SF p = S754_finite s m e -> -1073 <= e ->
  Prim2SF (p / 2) = S754_finite s m (e - 1).
Proof.
  intros E He. pose proof (Prim2SF_valid p) as V. rewrite E in V.
  apply valid_finite in V as (Hb & _ & Hd).
  rewrite div_spec, E. change (Prim2SF 2) with two_sf.
  apply SFdiv_two_signed; [apply Hd| |]; lia.
Qed.


(** *** Special values *)

Lemma is_infinity_spec (p : float) :
  is_infinity p = true -> exists s, Prim2SF p = S754_infinity s.
Proof.
  unfold is_infinity. rewrite eqb_spec, abs_spec. unfold SFeqb.
  change (Prim2SF infinity) with (S754_infinity false).
  destruct (Prim2SF p) as [s|s| |s m e]; simpl; try discriminate; eauto.
Qed.

Lemma is_zero_spec (p : float) :
  is_zero p = true -> exists s, Prim2SF p = S754_zero s.
Proof.
  unfold is_zero. rewrite eqb_spec. unfold SFeqb.
  change (Prim2SF zero) with (S754_zero false).
  destruct (Prim2SF p) as [s|s| |s m e]; simpl; try discriminate; eauto.
  - destruct s; discriminate.
  - destruct s; discriminate.
Qed.

Lemma halve_special (p : float) :
  is_nan p || is_infinity p || is_zero p = true -> (p / 2)%float = p.
Proof.
  intros H. apply Prim2SF_inj. rewrite div_spec. change (Prim2SF 2) with two_sf.
  apply orb_prop in H as [H|H]; [apply orb_prop in H as [H|H]|].
  - apply Compare.is_nan_spec in H. now rewrite H.
  - apply is_infinity_spec in H as [s ->]. simpl. now rewrite xorb_false_r.
  - apply is_zero_spec in H as [s ->]. simpl. now rewrite xorb_false_r.
Qed.


(** *** Halving at the smallest exponent, in full *)

Lemma binary_round_aux_at_emin (mz : Z) (l : location) :
  0 <= mz < 2 ^ 52 ->
  binary_round_aux prec emax false mz (-1074) l = at_emin (round_nearest_even mz l).
Proof.
  intros H. unfold binary_round_aux.
  rewrite shr_fexp_emin by (apply Zdigits2_small; lia).
  rewrite shr_record_of_loc_m, loc_of_shr_record_of_loc.
  pose proof (round_nearest_even_bounds mz l) as Hr.
  rewrite shr_fexp_emin by (apply Zdigits2_small; lia).
  rewrite shr_record_of_loc_m.
  now destruct (round_nearest_even mz l).
Qed.

Lemma SFdiv_two_at_emin (m : positive) :
  Z.pos (digits2_pos m) <= 53 ->
  exists r : Z,
    SFdiv prec emax (S754_finite false m (-1074)) two_sf = at_emin r /\
    Z.pos m / 2 <= r <= Z.pos m / 2 + 1 /\
    (Z.even (Z.pos m) = true -> r = Z.pos m / 2).
Proof.
  intros Hd.
  unfold_div_two m.
  replace (Z.min _ _) with (-1074) by (unfold fexp, emin, prec, emax; lia).
  change (-1074 - -51 - -1074) with 51.
  rewrite Z.shiftl_mul_pow2 by lia.
  assert (Z.pos m < 2 ^ 53) as Hm.
  { eapply Z.lt_le_trans; [apply digits2_pos_gt|]. apply Z.pow_le_mono_r; lia. }
  assert (Z.div_eucl (Z.pos m * 2 ^ 51) 4503599627370496 =
          (Z.pos m / 2, (Z.pos m mod 2) * 2 ^ 51)) as ->.
  { change 4503599627370496 with (2 * 2 ^ 51).
    rewrite <- Z.mul_mod_distr_r, <- (Z.div_mul_cancel_r (Z.pos m) 2 (2 ^ 51)) by lia.
    unfold Z.div, Z.modulo.
    now destruct (Z.div_eucl (Z.pos m * 2 ^ 51) (2 * 2 ^ 51)). }
  change (xorb false false) with false.
  assert (0 <= Z.pos m / 2 < 2 ^ 52) as Hq.
  { split; [apply Z.div_pos; lia|]. apply Z.div_lt_upper_bound; lia. }
  rewrite binary_round_aux_at_emin by exact Hq.
  eexists. split; [reflexivity|]. split; [apply round_nearest_even_bounds|].
  intros Hev. rewrite Zmod_even, Hev. reflexivity.
Qed.


(** *** Halving keeps the order *)

Lemma digits2_pos_ge (p : positive) : 2 ^ (Z.pos (digits2_pos p) - 1) <= Z.pos p.
Proof.
  rewrite digits2_pos_size.
  pose proof (Pos.size_le p) as Hs.
  apply Pos2Z.pos_le_pos in Hs. rewrite Pos2Z.inj_pow in Hs.
  change (Z.pos p~0) with (2 * Z.pos p) in Hs.
  replace (Z.pos (Pos.size p)) with (Z.succ (Z.pos (Pos.size p) - 1)) in Hs by lia.
  rewrite Z.pow_succ_r in Hs by lia. lia.
Qed.

Lemma SFleb_same_exponent (a b : positive) (e : Z) :
  SFleb (S754_finite false a e) (S754_finite false b e) = true <-> (a <= b)%positive.
Proof.
  unfold SFleb. cbn [SFcompare]. rewrite Z.compare_refl.
  fold (Pos.compare a b). unfold Pos.le.
  destruct (a ?= b)%positive; split; congruence.
Qed.

Lemma SFleb_finite (a b : positive) (e f : Z) :
  SFleb (S754_finite false a e) (S754_finite false b f) = true <->
  e < f \/ (e = f /\ (a <= b)%positive).
Proof.
  destruct (Z.compare_spec e f) as [->|H|H].
  - rewrite SFleb_same_exponent. intuition lia.
  - unfold SFleb. cbn [SFcompare].
    replace (e ?= f) with Lt by (symmetry; now apply Z.compare_lt_iff).
    intuition lia.
  - unfold SFleb. cbn [SFcompare].
    replace (e ?= f) with Gt by (symmetry; now apply Z.compare_gt_iff).
    split; [discriminate|lia].
Qed.

Lemma at_emin_le (r1 r2 : Z) :
  0 <= r1 <= r2 -> SFleb (at_emin r1) (at_emin r2) = true.
Proof.
  destruct r1 as [|p1|p1], r2 as [|p2|p2]; try lia; intros H; try reflexivity.
  apply SFleb_same_exponent. lia.
Qed.

Lemma at_emin_le_finite (r : Z) (m : positive) (e : Z) :
  0 <= r -> -1074 <= e -> (e = -1074 -> r <= Z.pos m) ->
  SFleb (at_emin r) (S754_finite false m e) = true.
Proof.
  destruct r as [|p|p]; try lia; intros _ He Hr; [reflexivity|].
  apply SFleb_finite.
  destruct (Z.eq_dec e (-1074)) as [->|]; [right|left; lia].
  split; [reflexivity|]. specialize (Hr eq_refl). lia.
Qed.

Lemma half_rounded_mono (m1 m2 : positive) (r1 r2 : Z) :
  (m1 < m2)%positive ->
  Z.pos m1 / 2 <= r1 <= Z.pos m1 / 2 + 1 ->
  (Z.even (Z.pos m1) = true -> r1 = Z.pos m1 / 2) ->
  Z.pos m2 / 2 <= r2 ->
  0 <= r1 <= r2.
Proof.
  intros Hm B1 E1 B2.
  assert (0 <= Z.pos m1 / 2) by (apply Z.div_pos; lia).
  assert (Z.pos m1 < Z.pos m2) as Hz by lia.
  pose proof (Z.div_le_mono _ _ 2 ltac:(lia) (Z.lt_le_incl _ _ Hz)) as Hq.
  split; [lia|].
  destruct (Z.eq_dec (Z.pos m1 / 2) (Z.pos m2 / 2)) as [Heq|Hne]; [|lia].
  destruct (Z.even (Z.pos m1)) eqn:Ev; [rewrite E1 by reflexivity; lia|].
  (* an odd [m1] has no larger number with the same half *)
  pose proof (Z.div_mod (Z.pos m1) 2 ltac:(lia)) as D1.
  pose proof (Z.div_mod (Z.pos m2) 2 ltac:(lia)) as D2.
  pose proof (Z.mod_pos_bound (Z.pos m2) 2 ltac:(lia)).
  rewrite Zmod_even, Ev in D1. lia.
Qed.


(** The half of a valid positive number, by the size of its exponent. *)
Lemma half_cases (m : positive) (e : Z) :
  valid_binary (S754_finite false m e) = true ->
  (-1073 <= e /\ digits2_pos m = 53%positive /\
   SFdiv prec emax (S754_finite false m e) two_sf = S754_finite false m (e - 1)) \/
  (e = -1074 /\
   exists r : Z,
     SFdiv prec emax (S754_finite false m e) two_sf = at_emin r /\
     Z.pos m / 2 <= r <= Z.pos m / 2 + 1 /\
     (Z.even (Z.pos m) = true -> r = Z.pos m / 2)).
Proof.
  intros (He & Hd & Hn)%valid_finite.
  destruct (Z.eq_dec e (-1074)) as [->|Hne].
  - right. split; [reflexivity|]. now apply SFdiv_two_at_emin.
  - left. assert (digits2_pos m = 53%positive) as D by (apply Hn; lia).
    repeat split; [lia|exact D|]. apply SFdiv_two_signed; [exact D| |]; lia.
Qed.

Lemma half_nonneg (m : positive) (e : Z) :
  valid_binary (S754_finite false m e) = true ->
  SFleb zero_sf (SFdiv prec emax (S754_finite false m e) two_sf) = true /\
  SFleb (SFdiv prec emax (S754_finite false m e) two_sf) (S754_infinity false) = true.
Proof.
  intros [(_ & _ & ->)|(_ & r & -> & B & _)]%half_cases; [now split|].
  assert (0 <= Z.pos m / 2) by (apply Z.div_pos; lia).
  destruct r; try lia; now split.
Qed.

Lemma SFdiv_two_mono (P1 P2 : spec_float) :
  valid_binary P1 = true -> valid_binary P2 = true ->
  SFleb zero_sf P1 = true -> SFleb P1 P2 = true ->
  SFleb (SFdiv prec emax P1 two_sf) (SFdiv prec emax P2 two_sf) = true.
Proof.
  intros V1 V2 H0 H.
  destruct P1 as [s1|s1| |s1 m1 e1]; try discriminate.
  - (* zero *)
    destruct P2 as [s2|s2| |s2 m2 e2]; try discriminate.
    + reflexivity.
    + destruct s2; [discriminate|reflexivity].
    + destruct s2; [discriminate|].
      change (SFdiv prec emax (S754_zero s1) two_sf) with (S754_zero (xorb s1 false)).
      destruct (half_nonneg m2 e2 V2) as [N _].
      destruct (SFdiv prec emax (S754_finite false m2 e2) two_sf) as [s|s| |s m e];
        try discriminate; try reflexivity.
      * destruct s; [discriminate|reflexivity].
      * destruct s; [discriminate|reflexivity].
  - (* infinity *)
    destruct s1; [discriminate|].
    destruct P2 as [s2|s2| |s2 m2 e2]; try discriminate.
    destruct s2; [discriminate|reflexivity].
  - (* finite *)
    destruct s1; [discriminate|].
    destruct P2 as [s2|s2| |s2 m2 e2]; try discriminate.
    + destruct s2; [discriminate|].
      change (SFdiv prec emax (S754_infinity false) two_sf) with (S754_infinity false).
      apply (half_nonneg m1 e1 V1).
    + destruct s2; [discriminate|].
      apply SFleb_finite in H.
      destruct (Pos.eq_dec m1 m2) as [<-|Hne].
      { (* the same mantissa: the same number, or a smaller exponent *)
        destruct H as [H|[<- _]].
        - destruct (half_cases m1 e1 V1) as [(L1 & D1 & ->)|(-> & r1 & -> & B1 & E1)];
            destruct (half_cases m1 e2 V2) as [(L2 & D2 & ->)|(-> & r2 & -> & B2 & E2)];
            try lia.
          + apply SFleb_finite. lia.
          + assert (0 <= Z.pos m1 / 2) by (apply Z.div_pos; lia).
            assert (Z.pos m1 / 2 < Z.pos m1) by (apply Z.div_lt_upper_bound; lia).
            apply at_emin_le_finite; lia.
        - destruct (half_nonneg m1 e1 V1) as [N _].
          unfold SFleb. rewrite Compare.SFcompare_refl; [reflexivity|].
          intros E. now rewrite E in N. }
      destruct (half_cases m1 e1 V1) as [(L1 & D1 & ->)|(-> & r1 & -> & B1 & E1)];
        destruct (half_cases m2 e2 V2) as [(L2 & D2 & ->)|(-> & r2 & -> & B2 & E2)].
      * apply SFleb_finite. lia.
      * lia.
      * assert (0 <= Z.pos m1 / 2) by (apply Z.div_pos; lia).
        apply at_emin_le_finite; try lia.
        intros He2.
        pose proof (digits2_pos_gt m1) as G1.
        apply valid_finite in V1 as (_ & Hd1 & _).
        assert (Z.pos m1 < 2 ^ 53)
          by (eapply Z.lt_le_trans; [exact G1|apply Z.pow_le_mono_r; lia]).
        pose proof (digits2_pos_ge m2) as G2. rewrite D2 in G2.
        assert (Z.pos m1 / 2 < 2 ^ 52) by (apply Z.div_lt_upper_bound; lia).
        change (2 ^ (53 - 1)) with (2 ^ 52) in G2. lia.
      * destruct H as [H|[_ H]]; [lia|].
        apply at_emin_le.
        apply (half_rounded_mono m1 m2); try assumption; try lia.
Qed.

Lemma halve_monotone (p1 p2 : float) :
  (0 <=? p1)%float = true -> (p1 <=? p2)%float = true ->
  (p1 / 2 <=? p2 / 2)%float = true.
Proof.
  rewrite !leb_spec, !div_spec.
  apply SFdiv_two_mono; apply Prim2SF_valid.
Qed.

End Halving.


(** ** Inputs: which path, which message *)

(** X1: for a positive [int] [dof], every [TS] gets exactly one of three
    treatments: the [ValueError] for a negative [TS] when [TS < 0]; the
    single call [np.sqrt(TS)] when [TS > 1400]; the general case when
    [0 <= TS <= 1400] or [TS] is a NaN.  A NaN is thus not rejected by
    the validation: it is handed to [chi2.sf]. *)
Theorem sigma_input_partition (TS : value) (d : Z) :
  0 < d ->
  (sigma TS (PyInt d) = Raise (Exn ValueError msg_TS) <-> lt_zero TS = true) /\
  (sigma TS (PyInt d) = large_TS_case TS <-> gt_1400 TS = true) /\
  (sigma TS (PyInt d) = general_case TS (PyInt d) <->
     ge_zero TS && le_1400 TS = true \/ nan_value TS = true) /\
  (lt_zero TS = true \/ gt_1400 TS = true \/
   ge_zero TS && le_1400 TS = true \/ nan_value TS = true).
Proof.
  intros Hd.
  destruct (lt_zero TS) eqn:H1.
  - assert (sigma TS (PyInt d) = Raise (Exn ValueError msg_TS)) as E
      by (unfold sigma, raise_if; now rewrite H1).
    rewrite E. pose proof (lt_zero_not_nan TS H1) as N.
    destruct (ge_zero TS) eqn:G; [now rewrite (ge_zero_not_lt TS G) in H1|].
    repeat split; auto; try discriminate.
    + intros G1400. now rewrite (gt_1400_not_lt_zero TS G1400) in H1.
    + intros [?|?]; [discriminate|congruence].
  - rewrite (sigma_past_guards TS (PyInt d)) by now apply guards_accept.
    destruct (gt_1400 TS) eqn:H2.
    + pose proof (gt_1400_not_nan TS H2) as N.
      destruct (le_1400 TS) eqn:G; [now rewrite (le_1400_not_gt TS G) in H2|].
      rewrite andb_false_r.
      repeat split; auto; try discriminate.
      intros [?|?]; [discriminate|congruence].
    + pose proof (between_thresholds TS H1 H2) as B.
      repeat split; auto; try discriminate.
Qed.

Lemma sigma_input_partition_witness :
  sigma (PyFloat nan) (PyInt 4) = general_case (PyFloat nan) (PyInt 4).
Proof.
  apply (sigma_input_partition (PyFloat nan) 4); [reflexivity|].
  right. reflexivity.
Defined.

(** X2: the guards are tried in order, so the message tells which one
    fired.  A negative [TS] is reported whatever [dof] is; a [dof <= 0]
    is reported as "must be positive" also when it is a [float]; "must
    be integer" is raised exactly for a [float] [dof] that is positive
    or a NaN. *)
Theorem sigma_error_message (TS dof : value) :
  (sigma TS dof = Raise (Exn ValueError msg_TS) <-> lt_zero TS = true) /\
  (sigma TS dof = Raise (Exn ValueError msg_dof_positive) <->
     lt_zero TS = false /\ le_zero dof = true) /\
  (sigma TS dof = Raise (Exn ValueError msg_dof_integer) <->
     lt_zero TS = false /\
     exists x : float, dof = PyFloat x /\ ((0 <? x)%float = true \/ is_nan x = true)).
Proof.
  destruct (lt_zero TS) eqn:H1.
  { assert (sigma TS dof = Raise (Exn ValueError msg_TS)) as ->
      by (unfold sigma, raise_if; now rewrite H1).
    repeat split; try discriminate; now intros [? _]. }
  destruct (le_zero dof) eqn:H2.
  { assert (sigma TS dof = Raise (Exn ValueError msg_dof_positive)) as ->
      by (unfold sigma, raise_if; now rewrite H1, H2).
    repeat split; try discriminate.
    intros (_ & x & -> & P). apply float_positive_or_nan in P.
    simpl in H2. congruence. }
  destruct dof as [n|x].
  - rewrite (sigma_past_guards TS (PyInt n))
      by (unfold rejected_by_guards; now rewrite H1, H2).
    repeat split; try (destruct (gt_1400 TS); discriminate); try now intros [? ?].
    intros (_ & x & [=] & _).
  - assert (sigma TS (PyFloat x) = Raise (Exn ValueError msg_dof_integer)) as ->
      by (unfold sigma, raise_if; now rewrite H1, H2).
    repeat split; try discriminate; try now intros [? ?].
    exists x. split; [reflexivity|]. now apply float_positive_or_nan.
Qed.

(** ** What the library is asked *)

(** X3: whatever the library answers, [np.sqrt] is only called on the
    caller's [TS] when it is above 1400 (never on a negative number or a
    NaN), [chi2.sf] only with the caller's [TS] and [dof] once they have
    passed the guards, and [norm.isf] only on half of [chi2.sf]'s
    answer. *)
Theorem library_calls_validated (L : stats_lib) (TS dof : value) (c : libcall) :
  In c (calls L (sigma TS dof)) -> validated_call L TS dof c.
Proof.
  destruct (rejected_by_guards TS dof) eqn:G.
  - destruct (sigma_at_guards TS dof G) as [msg ->]. intros [].
  - rewrite (sigma_past_guards TS dof G).
    unfold rejected_by_guards in G.
    apply orb_false_elim in G as [G G3]. apply orb_false_elim in G as [G1 G2].
    apply negb_false_iff in G3.
    destruct (gt_1400 TS) eqn:H; simpl.
    + intros [<-|[]]. simpl. auto using gt_1400_not_nan.
    + intros [<-|[<-|[]]]; simpl; auto 10 using positive_int.
Qed.

Lemma library_calls_validated_witness :
  validated_call (const_lib 1 1 0) (PyInt 2000) (PyInt 3) (np_sqrt (PyInt 2000)).
Proof.
  apply (library_calls_validated (const_lib 1 1 0) (PyInt 2000) (PyInt 3)).
  left. reflexivity.
Defined.

(** X4: when [chi2.sf] answers with a number in [0, 1], the argument
    passed to [norm.isf] lies in [0, 0.5]. *)
Theorem norm_isf_argument_range (L : stats_lib) (TS dof : value) (q : float) :
  In (norm_isf q) (calls L (sigma TS dof)) ->
  (0 <=? lib_chi2_sf L TS dof)%float = true ->
  (lib_chi2_sf L TS dof <=? 1)%float = true ->
  (0 <=? q)%float = true /\ (q <=? 0.5)%float = true.
Proof.
  intros ->%norm_isf_call. apply IEEE.halve_unit_interval.
Qed.

Lemma norm_isf_argument_range_witness :
  (0 <=? 1 / 2)%float = true /\ (1 / 2 <=? 0.5)%float = true.
Proof.
  apply (norm_isf_argument_range (const_lib 0 1 0) (PyInt 25) (PyInt 4) (1 / 2));
    [right; left; reflexivity|reflexivity|reflexivity].
Defined.

(** X5: the division by 2 is exact.  When [chi2.sf]'s answer is a finite
    non-zero number with exponent at least -1073 (magnitude at least
    2^-1021), the argument of [norm.isf] has the same sign and
    significand and the exponent one less. *)
Theorem halving_is_exact (L : stats_lib) (TS dof : value) (q : float)
    (s : bool) (m : positive) (e : Z) :
  In (norm_isf q) (calls L (sigma TS dof)) ->
  Prim2SF (lib_chi2_sf L TS dof) = S754_finite s m e -> -1073 <= e ->
  Prim2SF q = S754_finite s m (e - 1).
Proof.
  intros ->%norm_isf_call. apply Halving.halve_exact.
Qed.

Lemma halving_is_exact_witness :
  Prim2SF (0x1p-1021 / 2) = S754_finite false 4503599627370496 (-1073 - 1).
Proof.
  apply (halving_is_exact (const_lib 0 0x1p-1021 0) (PyInt 25) (PyInt 4) (0x1p-1021 / 2)
           false 4503599627370496 (-1073)).
  - right. left. reflexivity.
  - reflexivity.
  - discriminate.
Defined.

(** X6: [sigma] does not sanitise [chi2.sf]'s answer.  If it is a NaN,
    an infinity or a zero, [norm.isf] is called with that same value. *)
Theorem special_values_pass_through (L : stats_lib) (TS dof : value) (q : float) :
  In (norm_isf q) (calls L (sigma TS dof)) ->
  special_value (lib_chi2_sf L TS dof) = true ->
  q = lib_chi2_sf L TS dof.
Proof.
  intros ->%norm_isf_call. apply Halving.halve_special.
Qed.

Lemma special_values_pass_through_witness : (nan / 2)%float = nan.
Proof.
  apply (special_values_pass_through (const_lib 0 nan 0) (PyInt 25) (PyInt 4) (nan / 2)).
  - right. left. reflexivity.
  - reflexivity.
Defined.

(** X7: the division by 2 keeps the order of tail probabilities, also
    where it rounds.  For two calls in the general case, if [chi2.sf]
    answered [p1] and [p2] with [0 <= p1 <= p2], the arguments passed to
    [norm.isf] are ordered the same way. *)
Theorem halving_keeps_order (L : stats_lib) (TS1 dof1 TS2 dof2 : value) (q1 q2 : float) :
  In (norm_isf q1) (calls L (sigma TS1 dof1)) ->
  In (norm_isf q2) (calls L (sigma TS2 dof2)) ->
  (0 <=? lib_chi2_sf L TS1 dof1)%float = true ->
  (lib_chi2_sf L TS1 dof1 <=? lib_chi2_sf L TS2 dof2)%float = true ->
  (q1 <=? q2)%float = true.
Proof.
  intros ->%norm_isf_call ->%norm_isf_call. apply Halving.halve_monotone.
Qed.

Lemma halving_keeps_order_witness :
  (0x1p-1074 / 2 <=? 0x3p-1074 / 2)%float = true.
Proof.
  apply (halving_keeps_order
           (StatsLib (fun _ => 0%float)
                     (fun x _ => match x with
                                 | PyInt 10 => 0x1p-1074%float
                                 | _ => 0x3p-1074%float
                                 end)
                     (fun _ => 0%float))
           (PyInt 10) (PyInt 2) (PyInt 5) (PyInt 2)
           (0x1p-1074 / 2) (0x3p-1074 / 2)).
  - right. left. reflexivity.
  - right. left. reflexivity.
  - reflexivity.
  - reflexivity.
Defined.

(** ** The example cell *)

(** X8: whatever the library answers, the example cell raises nothing
    and prints its three lines, for (dof 4, TS 25), (dof 2, TS 19.8) and
    (dof 2, TS 10) in that order; each significance shown is the
    general-case value, none comes from the square-root branch. *)
Theorem examples_run_clean (L : stats_lib) :
  run_cell L examples =
    (Line (PyInt 4) (PyInt 25) (exact_formula L (PyInt 25) (PyInt 4)) ::
     Line (PyInt 2) (PyFloat 0x1.3cccccccccccdp+4)
          (exact_formula L (PyFloat 0x1.3cccccccccccdp+4) (PyInt 2)) ::
     Line (PyInt 2) (PyInt 10) (exact_formula L (PyInt 10) (PyInt 2)) :: nil,
     None).
Proof. reflexivity. Qed.
